(** * pyubx2: the UBX helper functions, message object and stream reader

    A shallow embedding of [src/pyubx2.py]: the byte/integer helpers
    [bytes2val] and [val2bytes], the [UBXMessage] object and
    [UBXReader.read], together with the properties of them that the
    specification states. *)

From Stdlib Require Import ZArith Lia.
From Stdlib Require Import Strings.Ascii Strings.String.
From Stdlib Require Import Strings.Byte Strings.HexString.
From stdpp Require Import base option list strings gmap.

Import Init.Byte.

Open Scope Z_scope.

(** ** Python values that the code handles *)

(** A Python [bytes] object. *)
Abbreviation bytes := (list byte).

Definition byte_val (b : byte) : Z := Z.of_N (Byte.to_N b).

(** The byte whose value is [z mod 256]. *)
Definition byte_of (z : Z) : byte :=
  default x00 (Byte.of_N (Z.to_N (z mod 256))).

#[global] Instance byte_eq_dec : EqDecision byte := Byte.byte_eq_dec.

(** A raised exception, with its class name and [str(e)].  [Exn] is an
    instance of [Exception], which [except Exception] catches; [BaseExn]
    is an instance of a class that derives from [BaseException] and not
    from [Exception], such as [KeyboardInterrupt] and [SystemExit]. *)
Inductive exn :=
| Exn (cls str : string)
| BaseExn (cls str : string).

Definition exc_class (e : exn) : string :=
  match e with Exn cls _ | BaseExn cls _ => cls end.

Definition exc_str (e : exn) : string :=
  match e with Exn _ str | BaseExn _ str => str end.

(** [isinstance(e, Exception)] *)
Definition is_Exception (e : exn) : bool :=
  match e with Exn _ _ => true | BaseExn _ _ => false end.

#[global] Instance exn_eq_dec : EqDecision exn.
Proof. solve_decision. Defined.

(** The values passed as keyword arguments to [UBXReader]. *)
Inductive pyval :=
| PNone
| PBool (b : bool)
| PInt (z : Z).

#[global] Instance pyval_eq_dec : EqDecision pyval.
Proof. solve_decision. Defined.

(** Python truthiness, as used by [if x:]. *)
Definition truthy (v : pyval) : bool :=
  match v with
  | PNone => false
  | PBool b => b
  | PInt z => negb (z =? 0)
  end.

(** ** [int.from_bytes] and [int.to_bytes] (unsigned) *)

Inductive byteorder := Little | Big.

Fixpoint from_little (bs : bytes) : Z :=
  match bs with
  | [] => 0
  | b :: rest => byte_val b + 256 * from_little rest
  end.

Fixpoint from_big (acc : Z) (bs : bytes) : Z :=
  match bs with
  | [] => acc
  | b :: rest => from_big (256 * acc + byte_val b) rest
  end.

(** [int.from_bytes(bs, byteorder=order)] *)
Definition int_from_bytes (bs : bytes) (order : byteorder) : Z :=
  match order with
  | Little => from_little bs
  | Big => from_big 0 bs
  end.

(** The [n] low bytes of [v], least significant first. *)
Fixpoint to_little (n : nat) (v : Z) : bytes :=
  match n with
  | O => []
  | S n' => byte_of v :: to_little n' (v / 256)
  end.

(** [v.to_bytes(length, byteorder=order)], for a [length] that fits a C
    [Py_ssize_t] (from [-2^63] to [2^63 - 1]): [ValueError] for a
    negative length, [OverflowError] for a negative value or one that
    does not fit in [length] bytes.  Python converts the length first and
    raises [OverflowError] for one outside that range, and it can fail
    to allocate a large result; neither is part of this definition, and
    the statements below say nothing of such lengths but what follows
    from a result having been returned. *)
Definition int_to_bytes (v length : Z) (order : byteorder) : exn + bytes :=
  if length <? 0 then
    inl (Exn "ValueError" "length argument must be non-negative")
  else if v <? 0 then
    inl (Exn "OverflowError" "can't convert negative int to unsigned")
  else if 256 ^ length <=? v then
    inl (Exn "OverflowError" "int too big to convert")
  else
    let le := to_little (Z.to_nat length) v in
    inr (match order with Little => le | Big => rev le end).

(** ** Helper functions *)

(** Convert bytes to integer value. *)
Definition bytes2val (bytesval : bytes) (bitfield : bool) : Z :=
  if bitfield then int_from_bytes bytesval Little
  else int_from_bytes bytesval Big.

(** Convert integer value to bytes. *)
Definition val2bytes (val length : Z) (bitfield : bool) : exn + bytes :=
  if bitfield then int_to_bytes val length Little
  else int_to_bytes val length Big.

(** The default of the [bitfield] argument of both helpers. *)
Definition bitfield_default : bool := false.

(** ** Streams

    [UBXReader] only calls [stream.read(n)]: a stream is any object with
    that method.  A call returns bytes or raises, and changes the state
    of the stream. *)

Class Stream (S : Type) := stream_read : Z → S → (exn + bytes) * S.

(** Computations that use a stream of type [S] and may raise. *)
Definition io (S A : Type) : Type := S → (exn + A) * S.

#[global] Instance io_ret {S} : MRet (io S) := λ A a s, (inr a, s).

#[global] Instance io_bind {S} : MBind (io S) := λ A B k m s,
  match m s with
  | (inr a, s') => k a s'
  | (inl e, s') => (inl e, s')
  end.

(** [io.BytesIO]: a buffer, the current position and the closed flag. *)
Record BytesIO := MkBytesIO { buf : bytes; pos : nat; closed : bool }.

(** [io.BytesIO(initial)] *)
Definition BytesIO_open (initial : bytes) : BytesIO := MkBytesIO initial 0 false.

(** [BytesIO.read(size)]: at most [size] bytes from the position (all of
    them for a negative [size]), fewer at the end of the buffer. *)
Definition BytesIO_read (size : Z) (s : BytesIO) : (exn + bytes) * BytesIO :=
  if closed s then
    (inl (Exn "ValueError" "I/O operation on closed file."), s)
  else
    let avail := drop (pos s) (buf s) in
    let data := if size <? 0 then avail else take (Z.to_nat size) avail in
    (inr data, MkBytesIO (buf s) (pos s + length data) false).

#[global] Instance BytesIO_stream : Stream BytesIO := BytesIO_read.

(** A stream whose [read] raises: a port whose blocking read is
    interrupted from the keyboard, or one that was unplugged. *)
Record RaisingStream := MkRaisingStream { raised : exn }.

#[global] Instance RaisingStream_stream : Stream RaisingStream :=
  λ size s, (inl (raised s), s).

(** ** Core constants *)

Definition UBX_HDR : bytes := [xb5; x62].

(** ** UBXMessage class *)

(** The upper-case form of a hexadecimal digit: the letters [a] to [f]
    (codes 97 to 102) move down by 32. *)
Definition upper_hex (c : ascii) : ascii :=
  let code := nat_of_ascii c in
  if ((97 <=? code) && (code <=? 102))%nat then ascii_of_nat (code - 32) else c.

Fixpoint string_map (f : ascii → ascii) (s : string) : string :=
  match s with
  | EmptyString => EmptyString
  | String c s' => String (f c) (string_map f s')
  end.

(** [f"{z:02X}"]: upper-case hexadecimal, padded with zeros to two
    characters (the sign counts as one). *)
Definition format_02X (z : Z) : string :=
  match z with
  | Z0 => "00"
  | Zpos p =>
      let digits := string_map upper_hex (HexString.Raw.of_pos p "") in
      if (String.length digits <? 2)%nat then "0" +:+ digits else digits
  | Zneg p => "-" +:+ string_map upper_hex (HexString.Raw.of_pos p "")
  end.

Module UBXMessage.

Record t := Mk {
  msgclass : Z;
  msgid : Z;
  payload : bytes;
  length : Z
}.

(** [UBXMessage(msgclass, msgid, payload)]; [payload] defaults to [None],
    and a falsy payload ([None] or no bytes) becomes the empty bytes. *)
Definition __init__ (msgclass msgid : Z) (payload : option bytes) : t :=
  let payload :=
    match payload with
    | Some ((_ :: _) as p) => p
    | _ => []
    end in
  Mk msgclass msgid payload (Z.of_nat (List.length payload)).

(** String representation of UBX message. *)
Definition __str__ (self : t) : string :=
  "UBX-" +:+ format_02X (msgclass self) +:+ format_02X (msgid self).

(** What can be done to a message once it is built: a call of its one
    method, [str(m)], or an assignment to one of its four attributes,
    [m.payload = v] and the like, which the class does nothing to
    prevent or to follow up. *)
Inductive operation :=
| Call_str
| Assign_msgclass (v : Z)
| Assign_msgid (v : Z)
| Assign_payload (v : bytes)
| Assign_length (v : Z).

(** The object after an operation, and what the operation returns. *)
Definition perform (o : operation) (self : t) : t * option string :=
  match o with
  | Call_str => (self, Some (__str__ self))
  | Assign_msgclass v => (Mk v (msgid self) (payload self) (length self), None)
  | Assign_msgid v => (Mk (msgclass self) v (payload self) (length self), None)
  | Assign_payload v => (Mk (msgclass self) (msgid self) v (length self), None)
  | Assign_length v => (Mk (msgclass self) (msgid self) (payload self) v, None)
  end.

(** A message after a sequence of operations. *)
Definition lifetime (ops : list operation) (self : t) : t :=
  foldl (λ obj o, (perform o obj).1) self ops.

(** The assignments that touch [payload] or [length]. *)
Definition assigns_payload_or_length (o : operation) : bool :=
  match o with
  | Assign_payload _ | Assign_length _ => true
  | _ => false
  end.

End UBXMessage.

(** ** UBXReader class *)

Module UBXReader.

Record t (S : Type) := Mk {
  stream : S;
  msgclass : pyval;
  msgid : pyval;
  quitonerror : pyval;
  validate : pyval;
  msgmode : pyval;
  ubxonly : pyval;
  parsebitfield : pyval;
  scaling : pyval;
  labelmsm : pyval;
  hpnmeamode : pyval
}.

Arguments Mk {S}.
Arguments stream {S}.
Arguments msgclass {S}.
Arguments msgid {S}.
Arguments quitonerror {S}.
Arguments validate {S}.
Arguments msgmode {S}.
Arguments ubxonly {S}.
Arguments parsebitfield {S}.
Arguments scaling {S}.
Arguments labelmsm {S}.
Arguments hpnmeamode {S}.

(** [kwargs.get(key, dflt)] *)
Definition get (kwargs : gmap string pyval) (key : string) (dflt : pyval) : pyval :=
  default dflt (kwargs !! key).

(** [UBXReader(stream, **kwargs)].  The keys of [kwargs] are the keyword
    arguments that reach the body: a call that passes [self] or [stream]
    as a keyword raises [TypeError] before the body runs. *)
Definition __init__ {S} (stream : S) (kwargs : gmap string pyval) : t S :=
  Mk stream
     (get kwargs "msgclass" PNone)
     (get kwargs "msgid" PNone)
     (get kwargs "quitonerror" (PBool false))
     (get kwargs "validate" (PBool true))
     (get kwargs "msgmode" (PInt 0))
     (get kwargs "ubxonly" (PBool false))
     (get kwargs "parsebitfield" (PBool true))
     (get kwargs "scaling" (PBool true))
     (get kwargs "labelmsm" (PBool true))
     (get kwargs "hpnmeamode" (PInt 0)).

Definition set_stream {S} (self : t S) (s : S) : t S :=
  Mk s (msgclass self) (msgid self) (quitonerror self) (validate self)
     (msgmode self) (ubxonly self) (parsebitfield self) (scaling self)
     (labelmsm self) (hpnmeamode self).

(** The body of the [try] block of [read]: what it returns ([None] or a
    message) or the exception that a call of [stream.read] raised. *)
Definition read_try {S} `{!Stream S} : io S (option UBXMessage.t) :=
  header ← stream_read 2;
  if bool_decide (header ≠ UBX_HDR) then mret None
  else
    b ← stream_read 1;
    let msgclass := int_from_bytes b Little in
    b ← stream_read 1;
    let msgid := int_from_bytes b Little in
    b ← stream_read 2;
    let length := int_from_bytes b Little in
    payload ← stream_read length;
    checksum ← stream_read 2;
    mret (Some (UBXMessage.__init__ msgclass msgid (Some payload))).

(** Read a UBX message from the stream.  The result is what the call
    returns ([inr]) or the exception it raises ([inl]), and the reader
    with its stream advanced.  [except Exception] handles the instances
    of [Exception]; any other exception leaves [read] as it was raised. *)
Definition read {S} `{!Stream S} (self : t S)
  : (exn + option UBXMessage.t) * t S :=
  match read_try (stream self) with
  | (inr m, s') => (inr m, set_stream self s')
  | (inl e, s') =>
      if is_Exception e then
        if truthy (quitonerror self) then
          (inl (Exn "UBXStreamError" ("Error reading UBX message: " +:+ exc_str e)),
           set_stream self s')
        else (inr None, set_stream self s')
      else (inl e, set_stream self s')
  end.

End UBXReader.

(** ** The acknowledgement frame of the specification *)

(** UBX-ACK-ACK for class 6, id 1, with its checksum. *)
Definition ack_frame : bytes :=
  [xb5; x62; x05; x01; x02; x00; x06; x01; x0f; x38].

Definition ack_message : UBXMessage.t := UBXMessage.Mk 5 1 [x06; x01] 2.

(** Modelled from the spec: the ChecksumEngine, of which [src/pyubx2.py]
    has no counterpart.  Two 8-bit accumulators start at 0 and, for each
    byte of class, id, length and payload, [ck_a = (ck_a + b) mod 256]
    and [ck_b = (ck_b + ck_a) mod 256]. *)
Definition checksum (content : bytes) : Z * Z :=
  foldl (λ ck b, let ck_a := (ck.1 + byte_val b) mod 256 in
                 (ck_a, (ck.2 + ck_a) mod 256))
        (0, 0) content.

(** * Properties *)

(** ** Bytes and integers *)

Lemma byte_val_range (b : byte) : 0 ≤ byte_val b < 256.
Proof.
  unfold byte_val. pose proof (Byte.to_N_bounded b). lia.
Qed.

Lemma byte_val_of (z : Z) : byte_val (byte_of z) = z mod 256.
Proof.
  unfold byte_val, byte_of.
  assert (Hr : 0 ≤ z mod 256 < 256) by (apply Z.mod_pos_bound; lia).
  destruct (Byte.of_N (Z.to_N (z mod 256))) as [b|] eqn:Hb.
  - apply Byte.to_of_N in Hb. simpl. rewrite Hb. lia.
  - apply Byte.of_N_None_iff in Hb. lia.
Qed.

Lemma from_little_range (bs : bytes) :
  0 ≤ from_little bs < 256 ^ Z.of_nat (length bs).
Proof.
  induction bs as [|b bs IH].
  - simpl. lia.
  - cbn [from_little length]. rewrite Nat2Z.inj_succ, Z.pow_succ_r by lia.
    pose proof (byte_val_range b). lia.
Qed.

Lemma from_little_app (xs ys : bytes) :
  from_little (xs ++ ys)
  = from_little xs + 256 ^ Z.of_nat (length xs) * from_little ys.
Proof.
  induction xs as [|b xs IH].
  - simpl. lia.
  - cbn [app from_little length]. rewrite IH, Nat2Z.inj_succ, Z.pow_succ_r by lia.
    lia.
Qed.

(** Big-endian reading is little-endian reading of the reversed bytes. *)
Lemma from_big_rev (bs : bytes) (acc : Z) :
  from_big acc bs = from_little (rev bs) + 256 ^ Z.of_nat (length bs) * acc.
Proof.
  revert acc. induction bs as [|b bs IH]; intros acc.
  - simpl. lia.
  - cbn [from_big rev length]. rewrite IH, from_little_app, length_rev.
    rewrite Nat2Z.inj_succ, Z.pow_succ_r by lia.
    cbn [from_little]. lia.
Qed.

Lemma length_to_little (n : nat) (v : Z) : length (to_little n v) = n.
Proof.
  revert v. induction n as [|n IH]; intros v; simpl; [done|]. by rewrite IH.
Qed.

Lemma from_little_to_little (n : nat) (v : Z) :
  0 ≤ v → from_little (to_little n v) = v mod 256 ^ Z.of_nat n.
Proof.
  revert v. induction n as [|n IH]; intros v Hv.
  - simpl. by rewrite Z.mod_1_r.
  - cbn [to_little from_little]. rewrite byte_val_of, IH by (apply Z.div_pos; lia).
    rewrite Nat2Z.inj_succ, Z.pow_succ_r by lia.
    rewrite Z.rem_mul_r by lia. lia.
Qed.

Lemma int_to_bytes_ok (v n : Z) (order : byteorder) :
  0 ≤ v < 256 ^ n →
  int_to_bytes v n order
  = inr (match order with
         | Little => to_little (Z.to_nat n) v
         | Big => rev (to_little (Z.to_nat n) v)
         end).
Proof.
  intros [Hv Hlt]. unfold int_to_bytes.
  assert (0 ≤ n).
  { destruct (Z.leb_spec 0 n); [done|]. rewrite Z.pow_neg_r in Hlt; lia. }
  destruct (Z.ltb_spec n 0); [lia|].
  destruct (Z.ltb_spec v 0); [lia|].
  destruct (Z.leb_spec (256 ^ n) v); [lia|]. done.
Qed.

Lemma int_from_to_bytes (v n : Z) (order : byteorder) (bs : bytes) :
  0 ≤ v < 256 ^ n →
  int_to_bytes v n order = inr bs →
  int_from_bytes bs order = v.
Proof.
  intros Hv. rewrite int_to_bytes_ok by done. intros [= <-].
  assert (0 ≤ n).
  { destruct (Z.leb_spec 0 n); [done|]. rewrite Z.pow_neg_r in Hv; lia. }
  assert (from_little (to_little (Z.to_nat n) v) = v) as Hle.
  { rewrite from_little_to_little, Z2Nat.id, Z.mod_small by lia. done. }
  destruct order; cbn [int_from_bytes]; [done|].
  rewrite from_big_rev, rev_involutive, Hle. lia.
Qed.

(** ** The helpers [bytes2val] and [val2bytes] *)



(** C2, as the code has it: with [bitfield=True] the bytes are read
    little-endian; with the default flag they are read big-endian, which
    is the little-endian value of the reversed bytes, so that the two
    readings agree on a single byte. *)
Theorem bytes2val_byteorder (b : bytes) :
  bytes2val b true = int_from_bytes b Little
  ∧ bytes2val b bitfield_default = int_from_bytes b Big
  ∧ bytes2val b bitfield_default = int_from_bytes (rev b) Little
  ∧ ∀ x : byte, bytes2val [x] bitfield_default = int_from_bytes [x] Little.
Proof.
  unfold bytes2val, bitfield_default. cbn [int_from_bytes].
  repeat split.
  - rewrite from_big_rev. lia.
  - intros x. simpl. lia.
Qed.

(** C2 as stated fails on two bytes: [01 00] is 256 by default, and 1
    when read little-endian. *)
Lemma bytes2val_default_not_little :
  length [x01; x00] = 2%nat
  ∧ bytes2val [x01; x00] bitfield_default = 256
  ∧ int_from_bytes [x01; x00] Little = 1
  ∧ bytes2val [x01; x00] bitfield_default ≠ int_from_bytes [x01; x00] Little.
Proof. repeat split. discriminate. Qed.

(** ** Reading from a [BytesIO] *)

Lemma BytesIO_read_open (n : Z) (b : bytes) (p : nat) :
  0 ≤ n →
  stream_read n (MkBytesIO b p false)
  = (inr (take (Z.to_nat n) (drop p b)),
     MkBytesIO b (p + length (take (Z.to_nat n) (drop p b))) false).
Proof.
  intros Hn. unfold stream_read, BytesIO_stream, BytesIO_read.
  cbn [closed buf pos].
  destruct (Z.ltb_spec n 0); [lia|]. done.
Qed.

Lemma io_bind_inr {S A B} (m : io S A) (k : A → io S B) (s s' : S) (a : A) :
  m s = (inr a, s') → (x ← m; k x) s = k a s'.
Proof. intros H. unfold mbind, io_bind. by rewrite H. Qed.

(** One [stream.read] of an open [BytesIO], followed by the list
    computations that the concrete prefix of the buffer allows. *)
Ltac io_read :=
  erewrite io_bind_inr;
    [|by apply BytesIO_read_open; try apply from_little_range; try done];
  change (Z.to_nat 2) with 2%nat; change (Z.to_nat 1) with 1%nat;
  cbn [drop take firstn skipn app length Nat.add].

(** A stream that starts with the sync bytes: whatever follows, [read]
    takes class, id and declared length from the next four bytes, then
    as many payload bytes as declared or as are left, then up to two
    more bytes, and builds a message. *)
Lemma read_try_frame (c i lo hi : byte) (rest : bytes) :
  let n := Z.to_nat (from_little [lo; hi]) in
  let b := UBX_HDR ++ c :: i :: lo :: hi :: rest in
  UBXReader.read_try (BytesIO_open b)
  = (inr (Some (UBXMessage.__init__ (byte_val c) (byte_val i)
                                     (Some (take n rest)))),
     MkBytesIO b (6 + length (take (n + 2) rest)) false).
Proof.
  intros n b. unfold UBXReader.read_try, BytesIO_open, b, UBX_HDR.
  io_read.
  rewrite bool_decide_false by (intros H; by apply H).
  do 3 io_read. cbn [int_from_bytes].
  io_read. io_read. unfold mret, io_ret.
  rewrite !take_0. cbn [length Nat.add]. rewrite !drop_0. fold n.
  f_equal.
  - cbn [from_little]. do 3 f_equal; lia.
  - f_equal. rewrite !length_take, length_drop. lia.
Qed.

(** A stream that does not start with the sync bytes: [read] consumes
    the two bytes it looked at (or the fewer that were left). *)
Lemma read_try_no_sync (b : bytes) (p : nat) :
  take 2 (drop p b) ≠ UBX_HDR →
  UBXReader.read_try (MkBytesIO b p false)
  = (inr None, MkBytesIO b (p + length (take 2 (drop p b))) false).
Proof.
  intros Hne. unfold UBXReader.read_try.
  erewrite io_bind_inr by (by apply BytesIO_read_open).
  change (Z.to_nat 2) with 2%nat.
  by rewrite bool_decide_true.
Qed.

Lemma UBXMessage_init_payload (c i : Z) (p : bytes) :
  UBXMessage.__init__ c i (Some p) = UBXMessage.Mk c i p (Z.of_nat (length p)).
Proof. by destruct p. Qed.

(** ** [UBXReader.read] and the configuration of the reader *)

Section reader.
Context {S : Type} `{!Stream S}.

Lemma read_returns (r : UBXReader.t S) (m : option UBXMessage.t) (s' : S) :
  UBXReader.read_try (UBXReader.stream r) = (inr m, s') →
  UBXReader.read r = (inr m, UBXReader.set_stream r s').
Proof. intros H. unfold UBXReader.read. by rewrite H. Qed.

Lemma init_returns (s s' : S) (kw : gmap string pyval) (m : option UBXMessage.t) :
  UBXReader.read_try s = (inr m, s') →
  UBXReader.read (UBXReader.__init__ s kw) = (inr m, UBXReader.__init__ s' kw).
Proof. intros H. unfold UBXReader.read. cbn [UBXReader.stream UBXReader.__init__]. by rewrite H. Qed.

(** The result of [read] and the stream it leaves depend on the stream
    and on the truth of [quitonerror] only. *)
Lemma read_depends (r1 r2 : UBXReader.t S) :
  UBXReader.stream r1 = UBXReader.stream r2 →
  truthy (UBXReader.quitonerror r1) = truthy (UBXReader.quitonerror r2) →
  (UBXReader.read r1).1 = (UBXReader.read r2).1
  ∧ UBXReader.stream (UBXReader.read r1).2 = UBXReader.stream (UBXReader.read r2).2.
Proof.
  intros Hs Hq. unfold UBXReader.read. rewrite Hs, Hq.
  destruct (UBXReader.read_try (UBXReader.stream r2)) as [[e|m] s'];
    [destruct (is_Exception e), (truthy (UBXReader.quitonerror r2))|];
    split; reflexivity.
Qed.

End reader.

(** ** What [read] returns for a frame *)

(** C1: on a stream holding exactly [B5 62 05 01 02 00 06 01 0F 38], one
    call of [read] returns a message with class 5, id 1 and the payload
    [06 01], however the reader is configured, and leaves the stream at
    its end. *)
Theorem read_ack_frame (kw : gmap string pyval) :
  ∃ m r',
    UBXReader.read (UBXReader.__init__ (BytesIO_open ack_frame) kw) = (inr (Some m), r')
    ∧ UBXMessage.msgclass m = 5
    ∧ UBXMessage.msgid m = 1
    ∧ UBXMessage.payload m = [x06; x01]
    ∧ pos (UBXReader.stream r') = length ack_frame.
Proof.
  eexists _, _. split.
  - apply init_returns.
    exact (read_try_frame x05 x01 x02 x00 [x06; x01; x0f; x38]).
  - repeat split.
Qed.




(** C4, as the code has it: the declared length is only used as the
    number of bytes to ask the stream for.  When a frame carries the
    payload bytes [present] and the trailing pair [ck_a ck_b] but
    declares another length, [read] still returns a message: its payload
    is the first [declared] bytes (or all, if there are fewer) of what
    follows the length field, which is not [present]. *)
Theorem read_length_mismatch
    (c i lo hi ck_a ck_b : byte) (present : bytes) (kw : gmap string pyval) :
  let declared := int_from_bytes [lo; hi] Little in
  declared ≠ Z.of_nat (length present) →
  ∃ m,
    (UBXReader.read
       (UBXReader.__init__
          (BytesIO_open (UBX_HDR ++ [c; i; lo; hi] ++ present ++ [ck_a; ck_b]))
          kw)).1
    = inr (Some m)
    ∧ UBXMessage.msgclass m = byte_val c
    ∧ UBXMessage.msgid m = byte_val i
    ∧ UBXMessage.payload m = take (Z.to_nat declared) (present ++ [ck_a; ck_b])
    ∧ UBXMessage.length m = Z.of_nat (length (UBXMessage.payload m))
    ∧ UBXMessage.payload m ≠ present.
Proof.
  intros declared Hne. eexists. split.
  - erewrite init_returns by apply read_try_frame.
    cbn [fst]. by rewrite UBXMessage_init_payload.
  - cbn [UBXMessage.msgclass UBXMessage.msgid UBXMessage.payload
         UBXMessage.length int_from_bytes].
    repeat split. intros Heq. apply Hne.
    apply (f_equal length) in Heq.
    rewrite length_take, length_app in Heq. cbn [length] in Heq.
    pose proof (from_little_range [lo; hi]).
    unfold declared. cbn [int_from_bytes]. lia.
Qed.

Lemma read_length_mismatch_witness :
  int_from_bytes [x03; x00] Little ≠ Z.of_nat (length [x06; x01])
  ∧ ∃ m,
      (UBXReader.read
         (UBXReader.__init__
            (BytesIO_open (UBX_HDR ++ [x05; x01; x03; x00] ++ [x06; x01] ++ [x0f; x38]))
            ∅)).1
      = inr (Some m)
      ∧ UBXMessage.msgclass m = byte_val x05
      ∧ UBXMessage.msgid m = byte_val x01
      ∧ UBXMessage.payload m
        = take (Z.to_nat (int_from_bytes [x03; x00] Little)) ([x06; x01] ++ [x0f; x38])
      ∧ UBXMessage.length m = Z.of_nat (length (UBXMessage.payload m))
      ∧ UBXMessage.payload m ≠ [x06; x01].
Proof.
  split; [discriminate|].
  apply (read_length_mismatch x05 x01 x03 x00 x0f x38 [x06; x01] ∅).
  discriminate.
Defined.

(** C4 as stated fails: the acknowledgement frame with its length field
    changed to 3 still has two payload bytes before the trailing pair,
    and [read] returns a message for it, under either error policy. *)
Lemma read_wrong_length_returned :
  let frame := [xb5; x62; x05; x01; x03; x00; x06; x01; x0f; x38] in
  int_from_bytes [x03; x00] Little = 3
  ∧ length [x06; x01] = 2%nat
  ∧ (UBXReader.read
       (UBXReader.__init__ (BytesIO_open frame) {["quitonerror" := PBool true]})).1
    = inr (Some (UBXMessage.Mk 5 1 [x06; x01; x0f] 3))
  ∧ (UBXReader.read (UBXReader.__init__ (BytesIO_open frame) ∅)).1
    = inr (Some (UBXMessage.Mk 5 1 [x06; x01; x0f] 3)).
Proof. cbv zeta. repeat split. Qed.

(** C5, as the code has it: there is no resynchronisation.  When the
    first two of three leading bytes are not the sync pair, the first
    [read] returns [None] and leaves the stream two bytes further,
    whatever frame follows. *)
Theorem read_no_resync
    (g0 g1 g2 : byte) (frame : bytes) (kw : gmap string pyval) :
  [g0; g1] ≠ UBX_HDR →
  UBXReader.read (UBXReader.__init__ (BytesIO_open ([g0; g1; g2] ++ frame)) kw)
  = (inr None,
     UBXReader.__init__ (MkBytesIO ([g0; g1; g2] ++ frame) 2 false) kw).
Proof.
  intros Hne. apply init_returns. unfold BytesIO_open.
  by rewrite read_try_no_sync.
Qed.

Lemma read_no_resync_witness :
  [x00; x00] ≠ UBX_HDR
  ∧ UBXReader.read
      (UBXReader.__init__ (BytesIO_open ([x00; x00; x00] ++ ack_frame)) ∅)
    = (inr None,
       UBXReader.__init__ (MkBytesIO ([x00; x00; x00] ++ ack_frame) 2 false) ∅).
Proof.
  split; [discriminate|].
  apply (read_no_resync x00 x00 x00 ack_frame ∅). discriminate.
Defined.

(** C5 as stated fails: the acknowledgement frame alone is read as its
    message, but after three zero bytes the first result is [None], and
    so are the six that follow, until the stream is exhausted. *)
Lemma read_garbage_then_frame :
  let r := UBXReader.__init__ (BytesIO_open ([x00; x00; x00] ++ ack_frame)) ∅ in
  (UBXReader.read (UBXReader.__init__ (BytesIO_open ack_frame) ∅)).1
  = inr (Some ack_message)
  ∧ (UBXReader.read r).1 = inr None
  ∧ (UBXReader.read r).1 ≠ inr (Some ack_message)
  ∧ Forall (λ k, (UBXReader.read (Nat.iter k (λ r', (UBXReader.read r').2) r)).1
                 = inr None)
           (seq 0 7)
  ∧ pos (UBXReader.stream (Nat.iter 7 (λ r', (UBXReader.read r').2) r))
    = length ([x00; x00; x00] ++ ack_frame).
Proof.
  cbv zeta. split; [reflexivity|]. split; [reflexivity|].
  split; [discriminate|]. split; [|reflexivity].
  repeat constructor.
Qed.

(** C6, as the code has it: on a stream holding exactly
    [B5 62 05 01 02 00 06], [read] returns a message with class 5, id 1
    and the one payload byte that was there, whatever the configuration
    of the reader; the short reads raise nothing. *)
Theorem read_truncated_frame (kw : gmap string pyval) :
  (UBXReader.read
     (UBXReader.__init__
        (BytesIO_open [xb5; x62; x05; x01; x02; x00; x06]) kw)).1
  = inr (Some (UBXMessage.Mk 5 1 [x06] 1)).
Proof.
  erewrite init_returns
    by exact (read_try_frame x05 x01 x02 x00 [x06]).
  reflexivity.
Qed.

(** C6 as stated fails: with [quitonerror=True] the call raises nothing,
    and with the default it does not return [None]. *)
Lemma read_truncated_no_error :
  let truncated := [xb5; x62; x05; x01; x02; x00; x06] in
  (∀ e, (UBXReader.read
           (UBXReader.__init__ (BytesIO_open truncated)
                               {["quitonerror" := PBool true]})).1 ≠ inl e)
  ∧ (UBXReader.read (UBXReader.__init__ (BytesIO_open truncated) ∅)).1
    ≠ inr None.
Proof. cbv zeta. split; [intros e|]; discriminate. Qed.

(** ** The configuration of the reader *)

(** C7, as the code has it: [msgclass] and [msgid] are stored on the
    reader and never looked at.  For every stream and every other
    setting, a reader given the filter values [fc] and [fi] holds them,
    and its [read] returns (or raises) what the reader without them
    does and leaves the stream in the same state: no frame is skipped. *)
Theorem read_ignores_filter
    {S : Type} `{!Stream S} (s : S) (kw : gmap string pyval) (fc fi : pyval) :
  let r := UBXReader.__init__ s kw in
  let r' := UBXReader.__init__ s (<["msgclass" := fc]> (<["msgid" := fi]> kw)) in
  UBXReader.msgclass r' = fc
  ∧ UBXReader.msgid r' = fi
  ∧ (UBXReader.read r').1 = (UBXReader.read r).1
  ∧ UBXReader.stream (UBXReader.read r').2 = UBXReader.stream (UBXReader.read r).2.
Proof.
  intros r r'. split; [|split].
  - unfold r'. cbn [UBXReader.__init__ UBXReader.msgclass]. unfold UBXReader.get.
    by rewrite lookup_insert_eq.
  - unfold r'. cbn [UBXReader.__init__ UBXReader.msgid]. unfold UBXReader.get.
    by rewrite lookup_insert_ne, lookup_insert_eq.
  - apply read_depends; [done|].
    unfold r, r'. cbn [UBXReader.__init__ UBXReader.quitonerror].
    unfold UBXReader.get. by rewrite !lookup_insert_ne.
Qed.

(** C7 as stated fails: a reader with [msgclass=6] and [msgid=1] returns
    the acknowledgement message, whose class is 5. *)
Lemma read_filter_mismatch_returned :
  let r := UBXReader.__init__ (BytesIO_open ack_frame)
             {["msgclass" := PInt 6; "msgid" := PInt 1]} in
  UBXReader.msgclass r = PInt 6
  ∧ UBXReader.msgid r = PInt 1
  ∧ (UBXReader.read r).1 = inr (Some ack_message)
  ∧ UBXMessage.msgclass ack_message = 5
  ∧ PInt (UBXMessage.msgclass ack_message) ≠ UBXReader.msgclass r.
Proof. cbv zeta. repeat split. discriminate. Qed.

(** C10, as the code has it: [read] handles the instances of
    [Exception].  With a false [quitonerror], which is the default, one
    that was raised while reading makes [read] return [None], and no
    instance of [Exception] leaves [read]; one leaves it only with a
    true [quitonerror], as a [UBXStreamError] made from the one that was
    raised.  An exception that is not an instance of [Exception] leaves
    [read] as it was raised, whatever [quitonerror] is. *)
Theorem read_quitonerror {S : Type} `{!Stream S} (r : UBXReader.t S) :
  truthy (UBXReader.quitonerror (UBXReader.__init__ (UBXReader.stream r) ∅)) = false
  ∧ (truthy (UBXReader.quitonerror r) = false →
     (∀ e s', UBXReader.read_try (UBXReader.stream r) = (inl e, s') →
              is_Exception e = true →
              (UBXReader.read r).1 = inr None)
     ∧ (∀ x, (UBXReader.read r).1 = inl x → is_Exception x = false))
  ∧ (∀ x, (UBXReader.read r).1 = inl x → is_Exception x = true →
          truthy (UBXReader.quitonerror r) = true
          ∧ ∃ e s', UBXReader.read_try (UBXReader.stream r) = (inl e, s')
                    ∧ is_Exception e = true
                    ∧ x = Exn "UBXStreamError"
                              ("Error reading UBX message: " +:+ exc_str e))
  ∧ (∀ e s', UBXReader.read_try (UBXReader.stream r) = (inl e, s') →
             is_Exception e = false →
             (UBXReader.read r).1 = inl e).
Proof.
  split; [reflexivity|]. unfold UBXReader.read.
  destruct (UBXReader.read_try (UBXReader.stream r)) as [[e|m] s'] eqn:Htry.
  - destruct (is_Exception e) eqn:He, (truthy (UBXReader.quitonerror r));
      cbn [fst]; (split; [|split]).
    + discriminate.
    + intros x [= <-] _. split; [done|]. by exists e, s'.
    + intros e' s'' [= <- <-]. congruence.
    + intros _. split; [done|discriminate].
    + discriminate.
    + intros e' s'' [= <- <-]. congruence.
    + discriminate.
    + intros x [= <-]. congruence.
    + intros e' s'' [= <- <-]. done.
    + intros _. split; [intros e' s'' [= <- <-]; congruence|].
      by intros x [= <-].
    + intros x [= <-]. congruence.
    + intros e' s'' [= <- <-]. done.
  - cbn [fst]. split; [|split]; try discriminate.
    intros _. split; discriminate.
Qed.

(** C10 as stated fails: a stream whose [read] raises
    [KeyboardInterrupt] makes [UBXReader.read] raise it too, unwrapped,
    with the default [quitonerror]. *)
Lemma read_keyboard_interrupt :
  let r := UBXReader.__init__
             (MkRaisingStream (BaseExn "KeyboardInterrupt" "")) ∅ in
  truthy (UBXReader.quitonerror r) = false
  ∧ (UBXReader.read r).1 = inl (BaseExn "KeyboardInterrupt" "")
  ∧ (UBXReader.read r).1 ≠ inr None.
Proof. cbv zeta. repeat split. discriminate. Qed.

(** ** The message object *)

(** C8, as the code has it: a message is built with the class and the
    id it was given and with the payload it was given, or the empty one
    for [None], and its [length] is the size of that payload.  Calls of
    its method and assignments to its class and id keep both; the
    attributes are plain ones, though, and an assignment to [payload]
    leaves [length] as it was, as one to [length] leaves [payload]. *)
Theorem length_is_payload_size
    (msgclass msgid : Z) (payload : option bytes) (ops : list UBXMessage.operation) :
  let m := UBXMessage.__init__ msgclass msgid payload in
  UBXMessage.msgclass m = msgclass
  ∧ UBXMessage.msgid m = msgid
  ∧ UBXMessage.payload m = default [] payload
  ∧ UBXMessage.length m = Z.of_nat (length (UBXMessage.payload m))
  ∧ (Forall (λ o, UBXMessage.assigns_payload_or_length o = false) ops →
     UBXMessage.payload (UBXMessage.lifetime ops m) = UBXMessage.payload m
     ∧ UBXMessage.length (UBXMessage.lifetime ops m) = UBXMessage.length m)
  ∧ (∀ v,
       let m' := UBXMessage.lifetime (ops ++ [UBXMessage.Assign_payload v]) m in
       UBXMessage.payload m' = v
       ∧ UBXMessage.length m' = UBXMessage.length (UBXMessage.lifetime ops m))
  ∧ (∀ v,
       let m' := UBXMessage.lifetime (ops ++ [UBXMessage.Assign_length v]) m in
       UBXMessage.length m' = v
       ∧ UBXMessage.payload m' = UBXMessage.payload (UBXMessage.lifetime ops m)).
Proof.
  cbv zeta. split; [done|]. split; [done|].
  split; [by destruct payload as [[|b p]|]|].
  split; [by destruct payload as [[|b p]|]|].
  split; [|split; intros v; unfold UBXMessage.lifetime; by rewrite foldl_app].
  generalize (UBXMessage.__init__ msgclass msgid payload).
  induction ops as [|o ops IH]; intros m Hops; [done|].
  apply Forall_cons in Hops as [Ho Hops].
  change (UBXMessage.lifetime (o :: ops) m)
    with (UBXMessage.lifetime ops (UBXMessage.perform o m).1).
  destruct (IH (UBXMessage.perform o m).1 Hops) as [-> ->].
  by destruct o.
Qed.

(** C8 as stated fails: after the empty bytes are assigned to [payload]
    on the message built with the payload [06 01], [length] is still 2
    and the payload has no byte. *)
Lemma payload_assignment_keeps_length :
  let m := UBXMessage.lifetime [UBXMessage.Assign_payload []]
             (UBXMessage.__init__ 5 1 (Some [x06; x01])) in
  UBXMessage.length m = 2
  ∧ Z.of_nat (length (UBXMessage.payload m)) = 0
  ∧ UBXMessage.length m ≠ Z.of_nat (length (UBXMessage.payload m)).
Proof. cbv zeta. repeat split. discriminate. Qed.

(** * Further properties of the code *)

(** ** [int.from_bytes] and [int.to_bytes] as inverses *)

Lemma byte_of_val (b : byte) (x : Z) : byte_of (byte_val b + 256 * x) = b.
Proof.
  pose proof (byte_val_range b) as Hb. unfold byte_of.
  replace ((byte_val b + 256 * x) mod 256) with (byte_val b).
  - unfold byte_val. by rewrite N2Z.id, Byte.of_to_N.
  - rewrite Z.mul_comm, Z.mod_add by lia. by rewrite Z.mod_small.
Qed.

Lemma to_little_from_little (bs : bytes) :
  to_little (length bs) (from_little bs) = bs.
Proof.
  induction bs as [|b bs IH]; [done|].
  cbn [length to_little from_little]. rewrite byte_of_val. f_equal.
  pose proof (byte_val_range b).
  replace ((byte_val b + 256 * from_little bs) / 256) with (from_little bs); [done|].
  rewrite Z.mul_comm, Z.div_add by lia.
  rewrite (Z.div_small (byte_val b)) by lia. lia.
Qed.

(** Either byte order reads the bytes little-endian, in their own or in
    the reverse order. *)
Lemma int_from_bytes_little (bs : bytes) (order : byteorder) :
  int_from_bytes bs order
  = from_little (match order with Little => bs | Big => rev bs end).
Proof.
  destruct order; cbn [int_from_bytes]; [done|]. rewrite from_big_rev. lia.
Qed.

Lemma int_from_bytes_range (bs : bytes) (order : byteorder) :
  0 ≤ int_from_bytes bs order < 256 ^ Z.of_nat (length bs).
Proof.
  rewrite int_from_bytes_little. destruct order.
  - apply from_little_range.
  - rewrite <- (length_rev bs). apply from_little_range.
Qed.

Lemma int_to_from_bytes (bs : bytes) (order : byteorder) :
  int_to_bytes (int_from_bytes bs order) (Z.of_nat (length bs)) order = inr bs.
Proof.
  rewrite int_to_bytes_ok by apply int_from_bytes_range.
  rewrite Nat2Z.id, int_from_bytes_little. destruct order.
  - by rewrite to_little_from_little.
  - by rewrite <- (length_rev bs), to_little_from_little, rev_involutive.
Qed.

Lemma int_from_bytes_inj (a b : bytes) (order : byteorder) :
  length a = length b →
  int_from_bytes a order = int_from_bytes b order →
  a = b.
Proof.
  intros Hlen Hval.
  pose proof (int_to_from_bytes a order) as Ha.
  pose proof (int_to_from_bytes b order) as Hb.
  rewrite Hval, Hlen, Hb in Ha. by injection Ha.
Qed.

Lemma int_from_bytes_app (a b : bytes) (order : byteorder) :
  int_from_bytes (a ++ b) order
  = match order with
    | Little => int_from_bytes a Little
                + 256 ^ Z.of_nat (length a) * int_from_bytes b Little
    | Big => int_from_bytes a Big * 256 ^ Z.of_nat (length b)
             + int_from_bytes b Big
    end.
Proof.
  destruct order.
  - apply from_little_app.
  - rewrite !int_from_bytes_little, rev_app_distr, from_little_app, length_rev. lia.
Qed.

Lemma int_to_bytes_inr (v n : Z) (order : byteorder) (bs : bytes) :
  int_to_bytes v n order = inr bs → 0 ≤ n ∧ 0 ≤ v < 256 ^ n.
Proof.
  unfold int_to_bytes.
  destruct (Z.ltb_spec n 0); [done|].
  destruct (Z.ltb_spec v 0); [done|].
  destruct (Z.leb_spec (256 ^ n) v); [done|]. lia.
Qed.

Lemma int_to_bytes_length (v n : Z) (order : byteorder) (bs : bytes) :
  int_to_bytes v n order = inr bs → Z.of_nat (length bs) = n.
Proof.
  intros H. pose proof (int_to_bytes_inr _ _ _ _ H) as [Hn Hv].
  rewrite int_to_bytes_ok in H by done. injection H as <-.
  destruct order; rewrite ?length_rev, length_to_little; lia.
Qed.

Lemma helpers_byteorder (bs : bytes) (v n : Z) (f : bool) :
  bytes2val bs f = int_from_bytes bs (if f then Little else Big)
  ∧ val2bytes v n f = int_to_bytes v n (if f then Little else Big).
Proof. by destruct f. Qed.

(** ** The helpers [bytes2val] and [val2bytes], continued *)

(** X1: [val2bytes] returns bytes only for a length that is not
    negative and a value that is not negative and fits in that many
    bytes, and then it returns exactly that many bytes; for a negative
    length, of those that fit a C [Py_ssize_t], it raises [ValueError]
    whatever the value is. *)
Theorem val2bytes_domain (v n : Z) (f : bool) :
  (∀ bs, val2bytes v n f = inr bs →
         0 ≤ n ∧ 0 ≤ v < 256 ^ n ∧ Z.of_nat (length bs) = n)
  ∧ (- 2 ^ 63 ≤ n < 0 →
     ∃ e, val2bytes v n f = inl e ∧ exc_class e = "ValueError").
Proof.
  rewrite (proj2 (helpers_byteorder [] v n f)). split.
  - intros bs Hbs.
    pose proof (int_to_bytes_inr _ _ _ _ Hbs) as [Hn Hv].
    pose proof (int_to_bytes_length _ _ _ _ Hbs). done.
  - intros [_ Hn]. unfold int_to_bytes.
    destruct (Z.ltb_spec n 0); [|lia]. by eexists.
Qed.

(** X2: encoding what was decoded gives the bytes back.  For every byte
    string and either flag, [val2bytes] of the [bytes2val] value, with
    the length of the string and the same flag, returns the string. *)
Theorem val2bytes_of_bytes2val (bs : bytes) (f : bool) :
  val2bytes (bytes2val bs f) (Z.of_nat (length bs)) f = inr bs.
Proof.
  rewrite (proj2 (helpers_byteorder [] _ _ f)), (proj1 (helpers_byteorder bs 0 0 f)).
  apply int_to_from_bytes.
Qed.

(** X3: the value that [bytes2val] returns is never negative and is
    below [256 ^ len(bytesval)], with either flag. *)
Theorem bytes2val_range (bs : bytes) (f : bool) :
  0 ≤ bytes2val bs f < 256 ^ Z.of_nat (length bs).
Proof.
  rewrite (proj1 (helpers_byteorder bs 0 0 f)). apply int_from_bytes_range.
Qed.

(** X4: with the same flag, [bytes2val] maps two different byte strings
    of one length to different values: equal lengths and equal values
    mean equal bytes. *)
Theorem bytes2val_inj (a b : bytes) (f : bool) :
  length a = length b →
  bytes2val a f = bytes2val b f →
  a = b.
Proof.
  rewrite (proj1 (helpers_byteorder a 0 0 f)), (proj1 (helpers_byteorder b 0 0 f)).
  apply int_from_bytes_inj.
Qed.

Lemma bytes2val_inj_witness :
  length (to_little 2 513) = length [x01; x02]
  ∧ bytes2val (to_little 2 513) true = bytes2val [x01; x02] true
  ∧ to_little 2 513 = [x01; x02].
Proof.
  assert (Hlen : length (to_little 2 513) = length [x01; x02]) by reflexivity.
  assert (Hval : bytes2val (to_little 2 513) true = bytes2val [x01; x02] true)
    by reflexivity.
  split; [exact Hlen|]. split; [exact Hval|].
  exact (bytes2val_inj (to_little 2 513) [x01; x02] true Hlen Hval).
Defined.

(** X5: the value of a concatenation.  With [bitfield=True] the first
    part is the low end, [bytes2val(a + b) = bytes2val(a) + 256^len(a) *
    bytes2val(b)]; with the default flag it is the high end,
    [bytes2val(a + b) = bytes2val(a) * 256^len(b) + bytes2val(b)]. *)
Theorem bytes2val_app (a b : bytes) :
  bytes2val (a ++ b) true
  = bytes2val a true + 256 ^ Z.of_nat (length a) * bytes2val b true
  ∧ bytes2val (a ++ b) bitfield_default
    = bytes2val a bitfield_default * 256 ^ Z.of_nat (length b)
      + bytes2val b bitfield_default.
Proof.
  split.
  - apply (int_from_bytes_app a b Little).
  - apply (int_from_bytes_app a b Big).
Qed.

(** X6: a value that [val2bytes] encodes in [n] bytes is encoded in
    [n + 1] bytes as the same bytes and one zero byte at the most
    significant end: the last one with [bitfield=True], the first one
    with [bitfield=False]. *)
Theorem val2bytes_widen (v n : Z) (f : bool) (bs : bytes) :
  val2bytes v n f = inr bs →
  val2bytes v (n + 1) f = inr (if f then bs ++ [x00] else x00 :: bs).
Proof.
  rewrite !(proj2 (helpers_byteorder [] _ _ f)). intros Hbs.
  pose proof (int_to_bytes_inr _ _ _ _ Hbs) as [Hn Hv].
  pose proof (int_to_bytes_length _ _ _ _ Hbs) as Hlen.
  pose proof (int_from_to_bytes _ _ _ _ Hv Hbs) as Hval.
  set (wide := if f then bs ++ [x00] else x00 :: bs).
  assert (Z.of_nat (length wide) = n + 1) as Hwlen.
  { unfold wide. destruct f; rewrite ?length_app; cbn [length]; lia. }
  assert (int_from_bytes wide (if f then Little else Big) = v) as Hwval.
  { unfold wide. destruct f.
    - rewrite (int_from_bytes_app bs [x00] Little), Hval. cbn. lia.
    - change (x00 :: bs) with ([x00] ++ bs).
      rewrite (int_from_bytes_app [x00] bs Big), Hval. cbn. lia. }
  rewrite <- Hwval, <- Hwlen. apply int_to_from_bytes.
Qed.

Lemma val2bytes_widen_witness :
  val2bytes 258 2 false = inr [x01; x02]
  ∧ val2bytes 258 (2 + 1) false = inr [x00; x01; x02].
Proof.
  split; [reflexivity|].
  apply (val2bytes_widen 258 2 false [x01; x02]). reflexivity.
Defined.

(** ** [read] on a [BytesIO] at any position *)

(** A read of an open [BytesIO] of which [q] bytes were asked for since
    position [p]: the position is [p + q], or the end of the buffer. *)
Lemma BytesIO_read_rel (n : Z) (b : bytes) (p q : nat) :
  0 ≤ n →
  stream_read n (MkBytesIO b (p + q `min` length (drop p b)) false)
  = (inr (take (Z.to_nat n) (drop q (drop p b))),
     MkBytesIO b (p + (q + Z.to_nat n) `min` length (drop p b)) false).
Proof.
  intros Hn. rewrite BytesIO_read_open by done.
  assert (drop (p + q `min` length (drop p b)) b = drop q (drop p b)) as ->.
  { rewrite drop_drop, length_drop.
    destruct (Nat.le_gt_cases q (length b - p)).
    - by rewrite Nat.min_l.
    - rewrite Nat.min_r by lia. rewrite !drop_ge; [done|lia|lia]. }
  do 2 f_equal. rewrite length_take, !length_drop. lia.
Qed.

Ltac io_read_rel :=
  erewrite io_bind_inr;
    [|by apply BytesIO_read_rel; try apply from_little_range; try done];
  cbv beta.

(** The bytes from the position on start with the sync pair: the next
    byte is the class, the next the id, the next two the declared
    length, each read as 0 where the buffer ends before it; the payload
    is what is there of the declared number of bytes, and up to two more
    bytes are consumed. *)
Lemma read_try_at (b : bytes) (p : nat) :
  let avail := drop p b in
  let n := Z.to_nat (from_little (take 2 (drop 4 avail))) in
  take 2 avail = UBX_HDR →
  UBXReader.read_try (MkBytesIO b p false)
  = (inr (Some (UBXMessage.__init__
                  (from_little (take 1 (drop 2 avail)))
                  (from_little (take 1 (drop 3 avail)))
                  (Some (take n (drop 6 avail))))),
     MkBytesIO b (p + length (take (8 + n) avail)) false).
Proof.
  intros avail n Hsync.
  replace (MkBytesIO b p false)
    with (MkBytesIO b (p + 0 `min` length (drop p b)) false)
    by (f_equal; lia).
  unfold UBXReader.read_try.
  io_read_rel. rewrite drop_0. fold avail.
  change (Z.to_nat 2) with 2%nat. rewrite Hsync.
  rewrite bool_decide_false by (intros H; by apply H).
  do 3 io_read_rel. cbn [int_from_bytes].
  io_read_rel. io_read_rel. unfold mret, io_ret.
  change (Z.to_nat 2) with 2%nat; change (Z.to_nat 1) with 1%nat.
  cbn [Nat.add]. fold avail. fold n.
  do 2 f_equal. rewrite length_take. lia.
Qed.

(** What one [read] does to an open [BytesIO], in all cases. *)
Lemma read_try_open (b : bytes) (p : nat) :
  ∃ m p',
    UBXReader.read_try (MkBytesIO b p false) = (inr m, MkBytesIO b p' false)
    ∧ (p ≤ p' ≤ p `max` length b)%nat
    ∧ (p < length b → p < p')%nat
    ∧ (length b ≤ p → m = None ∧ p' = p)%nat
    ∧ (is_Some m ↔ take 2 (drop p b) = UBX_HDR).
Proof.
  destruct (decide (take 2 (drop p b) = UBX_HDR)) as [Hsync|Hsync].
  - eexists _, _. split; [by apply read_try_at|].
    assert (2 ≤ length (drop p b))%nat as Hlen.
    { apply (f_equal length) in Hsync. rewrite length_take in Hsync.
      unfold UBX_HDR in Hsync. cbn [length] in Hsync. lia. }
    rewrite length_take. rewrite length_drop in *.
    repeat split; try lia; eauto.
  - eexists _, _. split; [by apply read_try_no_sync|].
    rewrite length_take, length_drop.
    repeat split; try lia.
    + by intros [m' Hm'].
    + done.
Qed.

Lemma read_open (b : bytes) (p : nat) (kw : gmap string pyval) :
  ∃ m p',
    UBXReader.read (UBXReader.__init__ (MkBytesIO b p false) kw)
    = (inr m, UBXReader.__init__ (MkBytesIO b p' false) kw)
    ∧ (p ≤ p' ≤ p `max` length b)%nat
    ∧ (p < length b → p < p')%nat
    ∧ (length b ≤ p → m = None ∧ p' = p)%nat
    ∧ (is_Some m ↔ take 2 (drop p b) = UBX_HDR).
Proof.
  destruct (read_try_open b p) as (m & p' & Htry & H).
  exists m, p'. split; [by apply init_returns|done].
Qed.

(** Reading at position [p] is reading the rest of the buffer from its
    start, [p] bytes further on. *)
Lemma read_try_shift (b : bytes) (p : nat) :
  ∃ m q,
    UBXReader.read_try (MkBytesIO b p false) = (inr m, MkBytesIO b (p + q) false)
    ∧ UBXReader.read_try (BytesIO_open (drop p b))
      = (inr m, MkBytesIO (drop p b) q false).
Proof.
  unfold BytesIO_open.
  destruct (decide (take 2 (drop p b) = UBX_HDR)) as [Hsync|Hsync].
  - eexists _, _. split; [by apply read_try_at|].
    rewrite read_try_at by by rewrite drop_0. by rewrite !drop_0.
  - eexists _, _. split; [by apply read_try_no_sync|].
    rewrite read_try_no_sync by by rewrite drop_0. by rewrite !drop_0.
Qed.

(** X7: on an open [BytesIO] whose unread bytes start with the sync pair,
    [read] returns a message whatever follows.  The class and the id are
    the next two bytes and the declared length the two after them,
    little-endian, each taken as 0 where the buffer ends first; the
    payload is the declared number of bytes, or those that are left; the
    position moves over the six header bytes, the payload and up to two
    more bytes, as far as the buffer goes. *)
Theorem read_frame_at
    (b : bytes) (p : nat) (tail : bytes) (kw : gmap string pyval) :
  drop p b = UBX_HDR ++ tail →
  let n := Z.to_nat (int_from_bytes (take 2 (drop 2 tail)) Little) in
  UBXReader.read (UBXReader.__init__ (MkBytesIO b p false) kw)
  = (inr (Some (UBXMessage.Mk
                  (int_from_bytes (take 1 tail) Little)
                  (int_from_bytes (take 1 (drop 1 tail)) Little)
                  (take n (drop 4 tail))
                  (Z.of_nat (length (take n (drop 4 tail)))))),
     UBXReader.__init__
       (MkBytesIO b (p + 2 + length (take (6 + n) tail)) false) kw).
Proof.
  intros Havail n.
  erewrite init_returns
    by (apply read_try_at; rewrite Havail; reflexivity).
  rewrite Havail, UBXMessage_init_payload. unfold UBX_HDR.
  cbn [drop skipn app take firstn Nat.add length int_from_bytes].
  rewrite drop_0. subst n. cbn [int_from_bytes].
  do 3 f_equal. lia.
Qed.

Lemma read_frame_at_witness :
  drop 3 ([x00; x00; x00] ++ ack_frame) = UBX_HDR ++ drop 2 ack_frame
  ∧ UBXReader.read
      (UBXReader.__init__ (MkBytesIO ([x00; x00; x00] ++ ack_frame) 3 false) ∅)
    = (inr (Some ack_message),
       UBXReader.__init__ (MkBytesIO ([x00; x00; x00] ++ ack_frame) 13 false) ∅).
Proof.
  split; [reflexivity|].
  exact (read_frame_at ([x00; x00; x00] ++ ack_frame) 3 (drop 2 ack_frame) ∅ eq_refl).
Defined.

(** X8: on an open [BytesIO], [read] returns a message exactly when the
    next two unread bytes are the sync pair [B5 62]; in every other case,
    the end of the buffer included, it returns [None]. *)
Theorem read_message_iff_sync (b : bytes) (p : nat) (kw : gmap string pyval) :
  let result := (UBXReader.read (UBXReader.__init__ (MkBytesIO b p false) kw)).1 in
  ((∃ m, result = inr (Some m)) ↔ take 2 (drop p b) = UBX_HDR)
  ∧ (result = inr None ↔ take 2 (drop p b) ≠ UBX_HDR).
Proof.
  cbv zeta. destruct (read_open b p kw) as (m & p' & -> & _ & _ & _ & Hsync).
  cbn [fst]. rewrite <- Hsync. split; split.
  - intros [m' [= ->]]. by eexists.
  - intros [m' ->]. by eexists.
  - intros [= ->] [m' [=]].
  - intros Hnone. destruct m as [m'|]; [|done]. destruct Hnone. by eexists.
Qed.

(** X9: on an open [BytesIO], [read] raises nothing, whatever
    [quitonerror] is.  It leaves the buffer as it was and the stream
    open, and changes nothing of the reader but the position, which
    does not move back and does not pass the end of the buffer. *)
Theorem read_open_returns (b : bytes) (p : nat) (kw : gmap string pyval) :
  ∃ m p',
    UBXReader.read (UBXReader.__init__ (MkBytesIO b p false) kw)
    = (inr m, UBXReader.__init__ (MkBytesIO b p' false) kw)
    ∧ (p ≤ p' ≤ p `max` length b)%nat.
Proof.
  destruct (read_open b p kw) as (m & p' & Hread & Hpos & _).
  by exists m, p'.
Qed.

(** X10: while unread bytes are left, each [read] consumes at least one
    of them, at the sync pair or not. *)
Theorem read_progress (b : bytes) (p : nat) (kw : gmap string pyval) :
  (p < length b)%nat →
  (p < pos (UBXReader.stream
              (UBXReader.read (UBXReader.__init__ (MkBytesIO b p false) kw)).2))%nat.
Proof.
  intros Hlt. destruct (read_open b p kw) as (m & p' & -> & _ & Hprog & _).
  cbn. auto.
Qed.

Lemma read_progress_witness :
  (0 < length [x00])%nat
  ∧ (0 < pos (UBXReader.stream
                (UBXReader.read (UBXReader.__init__ (MkBytesIO [x00] 0 false) ∅)).2))%nat.
Proof.
  assert (H : (0 < length [x00])%nat) by (cbn; lia).
  split; [exact H|]. exact (read_progress [x00] 0 ∅ H).
Defined.

(** X11: at the end of the buffer (the empty stream included), [read]
    returns [None] and leaves the reader as it was, so that every later
    call does the same. *)
Theorem read_at_end (b : bytes) (p : nat) (kw : gmap string pyval) :
  (length b ≤ p)%nat →
  UBXReader.read (UBXReader.__init__ (MkBytesIO b p false) kw)
  = (inr None, UBXReader.__init__ (MkBytesIO b p false) kw).
Proof.
  intros Hend. destruct (read_open b p kw) as (m & p' & -> & _ & _ & Hnone & _).
  by destruct (Hnone Hend) as [-> ->].
Qed.

Lemma read_at_end_witness :
  (length (@nil byte) ≤ 0)%nat
  ∧ UBXReader.read (UBXReader.__init__ (MkBytesIO [] 0 false) ∅)
    = (inr None, UBXReader.__init__ (MkBytesIO [] 0 false) ∅).
Proof.
  assert (H : (length (@nil byte) ≤ 0)%nat) by (cbn; lia).
  split; [exact H|]. exact (read_at_end [] 0 ∅ H).
Defined.

(** X12: a message that [read] returns from an open [BytesIO] has a class
    and an id between 0 and 255, at most 65535 payload bytes, and its
    payload is the bytes of the buffer from the sixth after the position
    on: it is a part of what the stream held. *)
Theorem read_message_bounds
    (b : bytes) (p : nat) (kw : gmap string pyval)
    (m : UBXMessage.t) (r' : UBXReader.t BytesIO) :
  UBXReader.read (UBXReader.__init__ (MkBytesIO b p false) kw) = (inr (Some m), r') →
  0 ≤ UBXMessage.msgclass m < 256
  ∧ 0 ≤ UBXMessage.msgid m < 256
  ∧ 0 ≤ UBXMessage.length m < 65536
  ∧ UBXMessage.payload m
    = take (Z.to_nat (UBXMessage.length m)) (drop (p + 6) b).
Proof.
  intros Hread.
  destruct (decide (take 2 (drop p b) = UBX_HDR)) as [Hsync|Hsync].
  - erewrite init_returns in Hread by by apply read_try_at.
    rewrite UBXMessage_init_payload in Hread. injection Hread as <- _.
    cbn [UBXMessage.msgclass UBXMessage.msgid UBXMessage.length UBXMessage.payload].
    pose proof (from_little_range (take 1 (drop 2 (drop p b)))) as Hc.
    pose proof (from_little_range (take 1 (drop 3 (drop p b)))) as Hi.
    pose proof (from_little_range (take 2 (drop 4 (drop p b)))) as Hl.
    rewrite length_take in Hc, Hi, Hl.
    assert (∀ k : nat, (k ≤ 1)%nat → 256 ^ Z.of_nat k ≤ 256) as Hpow1
      by (intros [|[|k']] Hk; [cbn; lia|cbn; lia|lia]).
    assert (∀ k : nat, (k ≤ 2)%nat → 256 ^ Z.of_nat k ≤ 65536) as Hpow2
      by (intros [|[|[|k']]] Hk; [cbn; lia|cbn; lia|cbn; lia|lia]).
    pose proof (Hpow1 (1 `min` length (drop 2 (drop p b)))%nat ltac:(lia)).
    pose proof (Hpow1 (1 `min` length (drop 3 (drop p b)))%nat ltac:(lia)).
    pose proof (Hpow2 (2 `min` length (drop 4 (drop p b)))%nat ltac:(lia)).
    set (n := Z.to_nat (from_little (take 2 (drop 4 (drop p b))))).
    assert (Z.of_nat n < 65536) by lia.
    rewrite Nat2Z.id, length_take, (drop_drop b 6 p).
    repeat split; try lia.
    destruct (Nat.le_gt_cases n (length (drop (p + 6) b))).
    + by rewrite Nat.min_l.
    + rewrite Nat.min_r by lia. rewrite !take_ge; [done|lia|lia].
  - erewrite init_returns in Hread by by apply read_try_no_sync.
    discriminate.
Qed.

Lemma read_message_bounds_witness :
  UBXReader.read (UBXReader.__init__ (MkBytesIO ack_frame 0 false) ∅)
  = (inr (Some ack_message), UBXReader.__init__ (MkBytesIO ack_frame 10 false) ∅)
  ∧ 0 ≤ UBXMessage.msgclass ack_message < 256
  ∧ 0 ≤ UBXMessage.msgid ack_message < 256
  ∧ 0 ≤ UBXMessage.length ack_message < 65536
  ∧ UBXMessage.payload ack_message
    = take (Z.to_nat (UBXMessage.length ack_message)) (drop (0 + 6) ack_frame).
Proof.
  assert (H : UBXReader.read (UBXReader.__init__ (MkBytesIO ack_frame 0 false) ∅)
              = (inr (Some ack_message),
                 UBXReader.__init__ (MkBytesIO ack_frame 10 false) ∅))
    by reflexivity.
  split; [exact H|].
  exact (read_message_bounds ack_frame 0 ∅ ack_message _ H).
Defined.

(** X13: whatever the stream is and whatever its [read] method returns,
    a message that [UBXReader.read] returns has a [length] equal to the
    size of its [payload]. *)
Theorem read_message_length
    {S : Type} `{!Stream S} (r r' : UBXReader.t S) (m : UBXMessage.t) :
  UBXReader.read r = (inr (Some m), r') →
  UBXMessage.length m = Z.of_nat (length (UBXMessage.payload m)).
Proof.
  unfold UBXReader.read, UBXReader.read_try, mbind, io_bind, mret, io_ret.
  intros Hread. repeat case_match; simplify_eq.
  by rewrite UBXMessage_init_payload.
Qed.

Lemma read_message_length_witness :
  UBXReader.read (UBXReader.__init__ (BytesIO_open ack_frame) ∅)
  = (inr (Some ack_message), UBXReader.__init__ (MkBytesIO ack_frame 10 false) ∅)
  ∧ UBXMessage.length ack_message
    = Z.of_nat (length (UBXMessage.payload ack_message)).
Proof.
  assert (H : UBXReader.read (UBXReader.__init__ (BytesIO_open ack_frame) ∅)
              = (inr (Some ack_message),
                 UBXReader.__init__ (MkBytesIO ack_frame 10 false) ∅))
    by reflexivity.
  split; [exact H|].
  exact (read_message_length _ _ ack_message H).
Defined.

(** X14: frames are read one after the other.  After a complete frame
    (sync pair, class, id, a length field equal to the size of the
    payload, the payload and two trailing bytes) the position is at the
    end of that frame, and the next [read] returns what a [read] of the
    rest of the stream alone returns. *)
Theorem read_consecutive
    (c i lo hi ck_a ck_b : byte) (payload rest : bytes) (kw : gmap string pyval) :
  int_from_bytes [lo; hi] Little = Z.of_nat (length payload) →
  let frame := UBX_HDR ++ [c; i; lo; hi] ++ payload ++ [ck_a; ck_b] in
  let first := UBXReader.read (UBXReader.__init__ (BytesIO_open (frame ++ rest)) kw) in
  first.1 = inr (Some (UBXMessage.Mk (byte_val c) (byte_val i) payload
                                      (Z.of_nat (length payload))))
  ∧ UBXReader.stream first.2 = MkBytesIO (frame ++ rest) (length frame) false
  ∧ (UBXReader.read first.2).1
    = (UBXReader.read (UBXReader.__init__ (BytesIO_open rest) kw)).1.
Proof.
  intros Hlen frame first.
  assert (first = (inr (Some (UBXMessage.Mk (byte_val c) (byte_val i) payload
                                            (Z.of_nat (length payload)))),
                   UBXReader.__init__
                     (MkBytesIO (frame ++ rest) (length frame) false) kw)) as ->.
  { unfold first, frame. rewrite <- !app_assoc.
    erewrite init_returns by apply read_try_frame.
    cbn [int_from_bytes] in Hlen. rewrite Hlen, Nat2Z.id.
    rewrite UBXMessage_init_payload, take_app_length.
    do 3 f_equal.
    rewrite (app_assoc payload), take_app_length'
      by (rewrite length_app; cbn; lia).
    unfold UBX_HDR. rewrite !length_app. cbn [length]. lia. }
  cbn [fst snd]. split; [done|]. split; [done|].
  destruct (read_try_shift (frame ++ rest) (length frame)) as (m & q & Hat & Hrest).
  rewrite drop_app_length in Hrest.
  by rewrite (init_returns _ _ _ _ Hat), (init_returns _ _ _ _ Hrest).
Qed.

Lemma read_consecutive_witness :
  int_from_bytes [x02; x00] Little = Z.of_nat (length [x06; x01])
  ∧ let frame := UBX_HDR ++ [x05; x01; x02; x00] ++ [x06; x01] ++ [x0f; x38] in
    let first := UBXReader.read
                   (UBXReader.__init__ (BytesIO_open (frame ++ ack_frame)) ∅) in
    first.1 = inr (Some (UBXMessage.Mk (byte_val x05) (byte_val x01) [x06; x01]
                                        (Z.of_nat (length [x06; x01]))))
    ∧ UBXReader.stream first.2 = MkBytesIO (frame ++ ack_frame) (length frame) false
    ∧ (UBXReader.read first.2).1
      = (UBXReader.read (UBXReader.__init__ (BytesIO_open ack_frame) ∅)).1.
Proof.
  split; [reflexivity|].
  exact (read_consecutive x05 x01 x02 x00 x0f x38 [x06; x01] ack_frame ∅ eq_refl).
Defined.

Lemma read_iter_position (b : bytes) (kw : gmap string pyval) (k : nat) :
  ∃ p, Nat.iter k (λ r, (UBXReader.read r).2) (UBXReader.__init__ (BytesIO_open b) kw)
       = UBXReader.__init__ (MkBytesIO b p false) kw
       ∧ (k `min` length b ≤ p ≤ length b)%nat.
Proof.
  induction k as [|k (p & IH & Hp)].
  - exists 0%nat. split; [done|lia].
  - destruct (read_open b p kw) as (m & p' & Hread & Hpos & Hprog & _).
    exists p'. rewrite Nat.iter_succ, IH, Hread. split; [done|].
    destruct (Nat.lt_ge_cases p (length b)) as [Hlt|Hge]; [specialize (Hprog Hlt)|]; lia.
Qed.

(** X15: reading in a loop comes to the end of any buffer.  After as many
    calls of [read] as the buffer has bytes, or more, the position is
    the end of the buffer, and a further call returns [None] and changes
    nothing. *)
Theorem read_loop_exhausts (b : bytes) (kw : gmap string pyval) (k : nat) :
  (length b ≤ k)%nat →
  let r := Nat.iter k (λ r, (UBXReader.read r).2)
                    (UBXReader.__init__ (BytesIO_open b) kw) in
  UBXReader.stream r = MkBytesIO b (length b) false
  ∧ UBXReader.read r = (inr None, r).
Proof.
  intros Hk r. destruct (read_iter_position b kw k) as (p & Hr & Hp).
  assert (p = length b) as -> by lia.
  unfold r. rewrite Hr. split; [done|].
  destruct (read_open b (length b) kw) as (m & p' & -> & _ & _ & Hnone & _).
  by destruct (Hnone ltac:(lia)) as [-> ->].
Qed.

Lemma read_loop_exhausts_witness :
  (length ([x00; x00; x00] ++ ack_frame) ≤ 13)%nat
  ∧ let r := Nat.iter 13 (λ r, (UBXReader.read r).2)
               (UBXReader.__init__ (BytesIO_open ([x00; x00; x00] ++ ack_frame)) ∅) in
    UBXReader.stream r
    = MkBytesIO ([x00; x00; x00] ++ ack_frame)
                (length ([x00; x00; x00] ++ ack_frame)) false
    ∧ UBXReader.read r = (inr None, r).
Proof.
  assert (H : (length ([x00; x00; x00] ++ ack_frame) ≤ 13)%nat) by (cbn; lia).
  split; [exact H|].
  exact (read_loop_exhausts ([x00; x00; x00] ++ ack_frame) ∅ 13 H).
Defined.

(** ** The options of the reader, continued *)

(** X16: of the keyword arguments only [quitonerror] bears on [read].
    Setting any other one ([stream] and [self] apart, which Python does
    not take as keywords here) to any value changes neither what [read]
    returns or raises nor the state it leaves the stream in; on a closed
    [BytesIO] a true [quitonerror] makes [read] raise where a false one
    makes it return [None]. *)
Theorem read_ignores_options
    {S : Type} `{!Stream S} (s : S) (kw : gmap string pyval)
    (key : string) (v : pyval) :
  key ∉ ["quitonerror"; "stream"; "self"] →
  ((UBXReader.read (UBXReader.__init__ s (<[key := v]> kw))).1
   = (UBXReader.read (UBXReader.__init__ s kw)).1
   ∧ UBXReader.stream (UBXReader.read (UBXReader.__init__ s (<[key := v]> kw))).2
     = UBXReader.stream (UBXReader.read (UBXReader.__init__ s kw)).2)
  ∧ (∀ (b : bytes) (p : nat),
       (UBXReader.read
          (UBXReader.__init__ (MkBytesIO b p true)
                              (<["quitonerror" := PBool true]> kw))).1
       = inl (Exn "UBXStreamError"
                  "Error reading UBX message: I/O operation on closed file.")
       ∧ (UBXReader.read
            (UBXReader.__init__ (MkBytesIO b p true)
                                (<["quitonerror" := PBool false]> kw))).1
         = inr None).
Proof.
  intros Hkey. split.
  - apply read_depends; [done|].
    cbn [UBXReader.__init__ UBXReader.quitonerror]. unfold UBXReader.get.
    rewrite lookup_insert_ne; [done|]. intros ->. apply Hkey. set_solver.
  - intros b p. unfold UBXReader.read.
    cbn [UBXReader.__init__ UBXReader.quitonerror UBXReader.stream].
    unfold UBXReader.get. by rewrite !lookup_insert_eq.
Qed.

Lemma read_ignores_options_witness :
  ("validate" ∉ ["quitonerror"; "stream"; "self"])
  ∧ (UBXReader.read
       (UBXReader.__init__ (BytesIO_open ack_frame) (<["validate" := PBool false]> ∅))).1
    = (UBXReader.read (UBXReader.__init__ (BytesIO_open ack_frame) ∅)).1.
Proof.
  assert (H : "validate" ∉ ["quitonerror"; "stream"; "self"]).
  { rewrite !not_elem_of_cons. repeat split; try discriminate.
    apply not_elem_of_nil. }
  split; [exact H|].
  exact (proj1 (proj1 (read_ignores_options (BytesIO_open ack_frame) ∅
                         "validate" (PBool false) H))).
Defined.

(** X17: [UBXReader.__init__] takes keyword arguments that it does not
    know and ignores them: for a key that is none of its ten, and not
    [stream] or [self], which Python refuses as keywords here, the
    reader is the one built without it. *)
Theorem init_ignores_unknown
    {S : Type} (s : S) (kw : gmap string pyval) (key : string) (v : pyval) :
  key ∉ ["msgclass"; "msgid"; "quitonerror"; "validate"; "msgmode"; "ubxonly";
         "parsebitfield"; "scaling"; "labelmsm"; "hpnmeamode";
         "stream"; "self"] →
  UBXReader.__init__ s (<[key := v]> kw) = UBXReader.__init__ s kw.
Proof.
  intros Hkey. unfold UBXReader.__init__, UBXReader.get.
  rewrite !lookup_insert_ne; [done|intros ->; apply Hkey; set_solver..].
Qed.

Lemma init_ignores_unknown_witness :
  ("baudrate" ∉ ["msgclass"; "msgid"; "quitonerror"; "validate"; "msgmode"; "ubxonly";
                 "parsebitfield"; "scaling"; "labelmsm"; "hpnmeamode";
                 "stream"; "self"])
  ∧ UBXReader.__init__ (BytesIO_open ack_frame) (<["baudrate" := PInt 9600]> ∅)
    = UBXReader.__init__ (BytesIO_open ack_frame) ∅.
Proof.
  assert (H : "baudrate" ∉ ["msgclass"; "msgid"; "quitonerror"; "validate";
                            "msgmode"; "ubxonly"; "parsebitfield"; "scaling";
                            "labelmsm"; "hpnmeamode"; "stream"; "self"]).
  { rewrite !not_elem_of_cons. repeat split; try discriminate.
    apply not_elem_of_nil. }
  split; [exact H|].
  exact (init_ignores_unknown (BytesIO_open ack_frame) ∅ "baudrate" (PInt 9600) H).
Defined.

(** ** The name of a message *)

Lemma format_02X_byte (c : byte) :
  ∃ hi lo, format_02X (byte_val c) = String hi (String lo EmptyString).
Proof. destruct c; by eexists _, _. Qed.

Lemma format_02X_byte_value (c : byte) :
  HexString.Raw.to_N (format_02X (byte_val c)) 0 = Byte.to_N c.
Proof. destruct c; reflexivity. Qed.

Lemma byte_val_of_small (z : Z) : 0 ≤ z < 256 → byte_val (byte_of z) = z.
Proof. intros Hz. rewrite byte_val_of. by apply Z.mod_small. Qed.

(** X18: for messages with class and id between 0 and 255, as [read]
    builds them from a byte stream, [__str__] gives a name of eight
    characters, and two messages have the same name exactly when they
    have the same class and the same id. *)
Theorem str_identifies (m1 m2 : UBXMessage.t) :
  0 ≤ UBXMessage.msgclass m1 < 256 → 0 ≤ UBXMessage.msgid m1 < 256 →
  0 ≤ UBXMessage.msgclass m2 < 256 → 0 ≤ UBXMessage.msgid m2 < 256 →
  String.length (UBXMessage.__str__ m1) = 8%nat
  ∧ (UBXMessage.__str__ m1 = UBXMessage.__str__ m2
     ↔ UBXMessage.msgclass m1 = UBXMessage.msgclass m2
       ∧ UBXMessage.msgid m1 = UBXMessage.msgid m2).
Proof.
  intros Hc1 Hi1 Hc2 Hi2. unfold UBXMessage.__str__.
  split; [|split; [|by intros [-> ->]]].
  - rewrite <- (byte_val_of_small _ Hc1), <- (byte_val_of_small _ Hi1).
    destruct (format_02X_byte (byte_of (UBXMessage.msgclass m1))) as (a1 & b1 & ->).
    by destruct (format_02X_byte (byte_of (UBXMessage.msgid m1))) as (c1 & d1 & ->).
  - rewrite <- (byte_val_of_small _ Hc1), <- (byte_val_of_small _ Hi1),
            <- (byte_val_of_small _ Hc2), <- (byte_val_of_small _ Hi2).
    pose proof (format_02X_byte_value (byte_of (UBXMessage.msgclass m1))) as Vc1.
    pose proof (format_02X_byte_value (byte_of (UBXMessage.msgid m1))) as Vi1.
    pose proof (format_02X_byte_value (byte_of (UBXMessage.msgclass m2))) as Vc2.
    pose proof (format_02X_byte_value (byte_of (UBXMessage.msgid m2))) as Vi2.
    destruct (format_02X_byte (byte_of (UBXMessage.msgclass m1))) as (a1 & b1 & Ec1).
    destruct (format_02X_byte (byte_of (UBXMessage.msgid m1))) as (c1 & d1 & Ei1).
    destruct (format_02X_byte (byte_of (UBXMessage.msgclass m2))) as (a2 & b2 & Ec2).
    destruct (format_02X_byte (byte_of (UBXMessage.msgid m2))) as (c2 & d2 & Ei2).
    rewrite Ec1, Ei1, Ec2, Ei2 in *.
    intros [= -> -> -> ->]. rewrite Vc1 in Vc2. rewrite Vi1 in Vi2.
    unfold byte_val. by rewrite Vc2, Vi2.
Qed.

Lemma str_identifies_witness :
  String.length (UBXMessage.__str__ ack_message) = 8%nat
  ∧ (UBXMessage.__str__ ack_message = UBXMessage.__str__ (UBXMessage.Mk 5 1 [] 0)
     ↔ UBXMessage.msgclass ack_message = 5 ∧ UBXMessage.msgid ack_message = 1).
Proof.
  apply (str_identifies ack_message (UBXMessage.Mk 5 1 [] 0)); cbn; lia.
Defined.

(** ** Frames assembled with [val2bytes] *)

(** X19: a frame put together with the helper is read back.  When the
    class and the id are encoded in one byte each and the size of the
    payload in two bytes by [val2bytes] with [bitfield=True], the stream
    of the sync pair, these four bytes, the payload and any further
    bytes is read as the message with that class, id and payload. *)
Theorem read_val2bytes_frame
    (c i : Z) (cb ib lb payload trailer : bytes) (kw : gmap string pyval) :
  val2bytes c 1 true = inr cb →
  val2bytes i 1 true = inr ib →
  val2bytes (Z.of_nat (length payload)) 2 true = inr lb →
  (UBXReader.read
     (UBXReader.__init__
        (BytesIO_open (UBX_HDR ++ cb ++ ib ++ lb ++ payload ++ trailer)) kw)).1
  = inr (Some (UBXMessage.Mk c i payload (Z.of_nat (length payload)))).
Proof.
  unfold val2bytes. intros Hc Hi Hl.
  pose proof (int_to_bytes_inr _ _ _ _ Hc) as [_ Hcr].
  pose proof (int_to_bytes_inr _ _ _ _ Hi) as [_ Hir].
  pose proof (int_to_bytes_inr _ _ _ _ Hl) as [_ Hlr].
  pose proof (int_from_to_bytes _ _ _ _ Hlr Hl) as Hlv.
  rewrite int_to_bytes_ok in Hc, Hi, Hl by done.
  injection Hc as <-. injection Hi as <-. injection Hl as <-.
  change (Z.to_nat 1) with 1%nat. change (Z.to_nat 2) with 2%nat in *.
  cbn [to_little app].
  erewrite init_returns by apply read_try_frame.
  cbn [fst]. cbn [to_little int_from_bytes] in Hlv. rewrite Hlv, Nat2Z.id.
  rewrite take_app_length, UBXMessage_init_payload.
  by rewrite !byte_val_of_small by lia.
Qed.

Lemma read_val2bytes_frame_witness :
  val2bytes 5 1 true = inr [x05]
  ∧ val2bytes 1 1 true = inr [x01]
  ∧ val2bytes (Z.of_nat (length [x06; x01])) 2 true = inr [x02; x00]
  ∧ (UBXReader.read
       (UBXReader.__init__
          (BytesIO_open (UBX_HDR ++ [x05] ++ [x01] ++ [x02; x00] ++ [x06; x01] ++ [x0f; x38]))
          ∅)).1
    = inr (Some (UBXMessage.Mk 5 1 [x06; x01] (Z.of_nat (length [x06; x01])))).
Proof.
  split; [reflexivity|]. split; [reflexivity|]. split; [reflexivity|].
  exact (read_val2bytes_frame 5 1 [x05] [x01] [x02; x00] [x06; x01] [x0f; x38] ∅
           eq_refl eq_refl eq_refl).
Defined.
